(** * gopacket decoding core: a shallow embedding

    The Go source file of package gopacket declares the decode-step
    result, the [decoder] interface with its function implementation
    [decoderFunc], the [DecodeMethod] selector, the [DecodeFailure] layer
    and the two baseline decoders [decodeUnknown] and [decodePayload].

    Go values are embedded as follows.
    - [[]byte] is [list Byte.byte]; the nil slice is the empty list.
    - Every [&T{...}] and every [errors.New] allocates an object in a
      store; a pointer is a store address, and an interface value
      ([Layer], [error], the slots of [specificLayers]) is either nil
      ([None]) or a pointer ([Some l]).  Two pointers alias exactly when
      the addresses are equal.
    - A function that may dereference a pointer runs in the monad [M]:
      it reads and extends the store and either returns or panics. *)

From stdpp Require Import base option list strings gmap.
From Stdlib.Strings Require Import Byte.

(** ** Values *)

Definition bytes := list Byte.byte.

Abbreviation loc := nat (only parsing).

(** A possibly-nil pointer, and the interface values built on it. *)
Definition ptr := option loc.
Definition Layer := ptr.
Definition error := ptr.

(** Modelled from the spec: the [LayerType] tag type and its constant
    [TYPE_DECODE_FAILURE] are declared outside the source file.  The spec has an
    open enumeration of tags registered by protocol modules, plus one
    reserved tag for decode failure. *)
Inductive LayerType :=
| TYPE_DECODE_FAILURE
| TYPE_REGISTERED (tag : N).

(** Modelled from the spec: the [Payload] struct is declared outside
    the source file, which builds it as [Payload{Data: data}]. *)
Record Payload := { Data : bytes }.

(** [type DecodeFailure struct { data []byte; err error }] *)
Record DecodeFailure := {
  DecodeFailure_data : bytes;
  DecodeFailure_err : error
}.

(** Modelled from the spec: the [specificLayers] struct is declared
    outside the source file, which only writes its [application] field.  The
    spec lists five optional slots: link, network, transport, application
    and error layer. *)
Record specificLayers := {
  link : Layer;
  network : Layer;
  transport : Layer;
  application : Layer;
  errorLayer : Layer
}.

(** The zero value of [specificLayers]: every slot nil. *)
Definition specificLayers_zero : specificLayers :=
  {| link := None; network := None; transport := None;
     application := None; errorLayer := None |}.

(** ** The store *)

Inductive object :=
| OPayload (p : Payload)
| ODecodeFailure (d : DecodeFailure)
| OErrorString (s : string)
| OSpecificLayers (s : specificLayers).

(** Allocation appends, so the address of a new object is the length of
    the store before the allocation. *)
Abbreviation heap := (list object).

Inductive outcome (A : Type) :=
| Returned (a : A) (h : heap)
| Panicked
| OutOfFuel.
Arguments Returned {A} a h.
Arguments Panicked {A}.
Arguments OutOfFuel {A}.

Definition M (A : Type) := heap -> outcome A.

Definition ret {A} (a : A) : M A := fun h => Returned a h.

Definition bind {A B} (c : M A) (k : A -> M B) : M B :=
  fun h =>
    match c h with
    | Returned a h' => k a h'
    | Panicked => Panicked
    | OutOfFuel => OutOfFuel
    end.

Definition panic {A} : M A := fun _ => Panicked.

Declare Scope go_scope.
Delimit Scope go_scope with go.
Notation "x <- c ;; k" := (bind c (fun x => k))
  (at level 100, c at next level, right associativity) : go_scope.
Notation "c ;; k" := (bind c (fun _ => k))
  (at level 100, right associativity) : go_scope.
Open Scope go_scope.

(** [&T{...}]: allocate and return the (non-nil) pointer. *)
Definition new (o : object) : M ptr :=
  fun h => Returned (Some (length h)) (h ++ [o]).

(** Reading through a pointer; a nil pointer dereference panics. *)
Definition load (p : ptr) : M object :=
  fun h =>
    match p with
    | None => Panicked
    | Some l => match h !! l with
                | Some o => Returned o h
                | None => Panicked
                end
    end.

Definition store (p : ptr) (o : object) : M unit :=
  fun h =>
    match p with
    | None => Panicked
    | Some l => match h !! l with
                | Some _ => Returned tt (<[l := o]> h)
                | None => Panicked
                end
    end.

(** Typed views of the store.  Go's type system guarantees that a
    [*specificLayers] points to a [specificLayers]; the untyped store
    records the other cases as a panic. *)
Definition load_specificLayers (s : ptr) : M specificLayers :=
  o <- load s ;;
  match o with
  | OSpecificLayers sl => ret sl
  | _ => panic
  end.

Definition load_DecodeFailure (d : ptr) : M DecodeFailure :=
  o <- load d ;;
  match o with
  | ODecodeFailure df => ret df
  | _ => panic
  end.

(** Pure lookups, for stating what a store holds. *)
Definition specificLayers_at (h : heap) (s : ptr) : option specificLayers :=
  match s with
  | Some l => match h !! l with
              | Some (OSpecificLayers sl) => Some sl
              | _ => None
              end
  | None => None
  end.

Definition Payload_at (h : heap) (p : Layer) : option Payload :=
  match p with
  | Some l => match h !! l with
              | Some (OPayload pl) => Some pl
              | _ => None
              end
  | None => None
  end.

Definition DecodeFailure_at (h : heap) (p : Layer) : option DecodeFailure :=
  match p with
  | Some l => match h !! l with
              | Some (ODecodeFailure d) => Some d
              | _ => None
              end
  | None => None
  end.

(** The text of an error value, [e.Error()] for an [errors.New] error. *)
Definition error_text (h : heap) (e : error) : option string :=
  match e with
  | Some l => match h !! l with
              | Some (OErrorString s) => Some s
              | _ => None
              end
  | None => None
  end.

(** [errors.New(text)] returns a pointer to a fresh error object. *)
Definition errors_New (text : string) : M error :=
  new (OErrorString text).

(** ** decodeResult and decoder

    [decodeResult] holds the next [decoder], and a decoder is a function
    that returns a [decodeResult]. *)
Inductive decodeResult :=
| Build_decodeResult (err : error) (layer : Layer) (next : option decoder)
    (left : bytes)
with decoder :=
| decoderFunc (d : bytes -> ptr -> heap -> outcome decodeResult).

Definition err (r : decodeResult) : error :=
  let 'Build_decodeResult e _ _ _ := r in e.
Definition layer (r : decodeResult) : Layer :=
  let 'Build_decodeResult _ l _ _ := r in l.
Definition next (r : decodeResult) : option decoder :=
  let 'Build_decodeResult _ _ n _ := r in n.
Definition left (r : decodeResult) : bytes :=
  let 'Build_decodeResult _ _ _ b := r in b.

(** The zero value of [decodeResult], which a Go function with the named
    result [out] starts from. *)
Definition decodeResult_zero : decodeResult :=
  Build_decodeResult None None None [].

(** [func (d decoderFunc) decode(data []byte, s *specificLayers)
    decodeResult { return d(data, s) }] *)
Definition decode (d : decoder) (data : bytes) (s : ptr) : M decodeResult :=
  match d with
  | decoderFunc f => f data s
  end.

(** ** DecodeMethod *)

Definition DecodeMethod := bool.
Definition Lazy : DecodeMethod := true.
Definition Eager : DecodeMethod := false.

(** ** DecodeFailure methods (pointer receivers) *)

Definition DecodeFailure_Payload (d : ptr) : M bytes :=
  df <- load_DecodeFailure d ;; ret (DecodeFailure_data df).

Definition DecodeFailure_Error (d : ptr) : M error :=
  df <- load_DecodeFailure d ;; ret (DecodeFailure_err df).

(** [LayerType] does not read its receiver. *)
Definition DecodeFailure_LayerType (d : ptr) : M LayerType :=
  ret TYPE_DECODE_FAILURE.

(** ** The baseline decoders *)

Definition set_err (e : error) (out : decodeResult) : decodeResult :=
  Build_decodeResult e (layer out) (next out) (left out).

Definition set_layer (l : Layer) (out : decodeResult) : decodeResult :=
  Build_decodeResult (err out) l (next out) (left out).

Definition set_application (a : Layer) (s : specificLayers) : specificLayers :=
  {| link := link s; network := network s; transport := transport s;
     application := a; errorLayer := errorLayer s |}.

Definition decodeUnknown_func (data : bytes) (_ : ptr) : M decodeResult :=
  let out := decodeResult_zero in
  e <- errors_New "Link type not currently supported"%string ;;
  let out := set_err e out in
  ret out.

Definition decodeUnknown : decoder := decoderFunc decodeUnknown_func.

Definition decodePayload_func (data : bytes) (s : ptr) : M decodeResult :=
  let out := decodeResult_zero in
  payload <- new (OPayload {| Data := data |}) ;;
  let out := set_layer payload out in
  sl <- load_specificLayers s ;;
  store s (OSpecificLayers (set_application payload sl)) ;;
  ret out.

Definition decodePayload : decoder := decoderFunc decodePayload_func.

(** ** Test harnesses for the source functions *)

(** Build a [DecodeFailure] from [d] and [e] and call its three methods. *)
Definition DecodeFailure_observe (d : bytes) (e : error)
  : M (bytes * error * LayerType) :=
  p <- new (ODecodeFailure {| DecodeFailure_data := d; DecodeFailure_err := e |}) ;;
  a <- DecodeFailure_Payload p ;;
  b <- DecodeFailure_Error p ;;
  c <- DecodeFailure_LayerType p ;;
  ret (a, b, c).

(** Invoke a decoder twice in a row on the same bytes, each time with a
    fresh zero-valued [specificLayers]. *)
Definition reinvoke (d : decoder) (data : bytes)
  : M (decodeResult * decodeResult) :=
  s1 <- new (OSpecificLayers specificLayers_zero) ;;
  r1 <- decode d data s1 ;;
  s2 <- new (OSpecificLayers specificLayers_zero) ;;
  r2 <- decode d data s2 ;;
  ret (r1, r2).

(** A test decoder, not part of the source: a one-byte link header.  It
    wraps the first byte as the link layer, writes the link slot and hands
    the rest to [decodePayload]. *)
Definition test_link_decoder : decoder :=
  decoderFunc (fun data s =>
    hdr <- new (OPayload {| Data := take 1 data |}) ;;
    sl <- load_specificLayers s ;;
    store s (OSpecificLayers
               {| link := hdr; network := network sl;
                  transport := transport sl; application := application sl;
                  errorLayer := errorLayer sl |}) ;;
    ret (Build_decodeResult None hdr (Some decodePayload) (drop 1 data))).

(** ** Registry, dispatcher and packet *)

(** Modelled from the spec: the link-type identifier and the decoder
    registry are declared outside the source file.  The registry maps a link
    type to the decoder that starts its chain; [Register] adds or
    replaces an entry, and looking up an unregistered type yields the
    unknown decoder. *)
Definition LinkType := N.

Abbreviation DecoderRegistry := (gmap LinkType decoder).

Definition Register (lt : LinkType) (d : decoder) (reg : DecoderRegistry)
  : DecoderRegistry :=
  <[lt := d]> reg.

Definition registry_lookup (reg : DecoderRegistry) (lt : LinkType) : decoder :=
  match reg !! lt with
  | Some d => d
  | None => decodeUnknown
  end.

(** Modelled from the spec: the packet is declared outside the source file.  It
    owns the raw buffer, the chain decoded so far, the [specificLayers]
    cache, the pending decoder with the pending bytes, and the evaluation
    mode.  [pending = None] is the fully decoded state. *)
Record packet := {
  raw : bytes;
  layers : list Layer;
  specific : ptr;
  pending : option (decoder * bytes);
  method : DecodeMethod
}.

Definition set_progress (ls : list Layer) (pd : option (decoder * bytes))
  (p : packet) : packet :=
  {| raw := raw p; layers := ls; specific := specific p; pending := pd;
     method := method p |}.

(** Append the produced layer, if any. *)
Definition append_layer (ls : list Layer) (l : Layer) : list Layer :=
  match l with
  | Some _ => ls ++ [l]
  | None => ls
  end.

(** Modelled from the spec: one iteration of the decode dispatcher, which
    is not in the source file.  It invokes the pending decoder on the pending
    bytes and the shared [specificLayers]; on failure it appends a
    [DecodeFailure] carrying the failure (and, as the comment on
    [DecodeFailure.Payload] says, the bytes that failed to decode) and
    stops; otherwise it appends the produced layer and continues only when
    both a next decoder and a non-empty remainder exist. *)
Definition dispatch_step (p : packet) : M packet :=
  match pending p with
  | None => ret p
  | Some (d, data) =>
      r <- decode d data (specific p) ;;
      match err r with
      | Some e =>
          f <- new (ODecodeFailure {| DecodeFailure_data := data;
                                      DecodeFailure_err := Some e |}) ;;
          ret (set_progress (layers p ++ [f]) None p)
      | None =>
          let ls := append_layer (layers p) (layer r) in
          match next r, left r with
          | Some d', _ :: _ => ret (set_progress ls (Some (d', left r)) p)
          | _, _ => ret (set_progress ls None p)
          end
      end
  end.

(** Modelled from the spec: the layer-accessing operations of the packet
    facade.  The four slot accessors need their slot; the error accessor
    and the full-chain accessor need the whole chain. *)
Inductive request :=
| WantLink
| WantNetwork
| WantTransport
| WantApplication
| WantError
| WantLayers.

Definition slot_of (r : request) (sl : specificLayers) : Layer :=
  match r with
  | WantLink => link sl
  | WantNetwork => network sl
  | WantTransport => transport sl
  | WantApplication => application sl
  | WantError | WantLayers => None
  end.

(** Reading a slot of the packet's own cache; the read itself cannot
    fail. *)
Definition satisfied (r : request) (p : packet) : M bool :=
  fun h =>
    match specificLayers_at h (specific p) with
    | Some sl => Returned (bool_decide (is_Some (slot_of r sl))) h
    | None => Returned false h
    end.

Definition out_of_fuel {A} : M A := fun _ => OutOfFuel.

(** Run the dispatcher to completion.  The source does not bound the
    chain, so the loop is bounded by [fuel] here and reports [OutOfFuel]
    when the bound is hit. *)
Fixpoint decodeAll (fuel : nat) (p : packet) : M packet :=
  match pending p with
  | None => ret p
  | Some _ =>
      match fuel with
      | O => out_of_fuel
      | S fuel' => p' <- dispatch_step p ;; decodeAll fuel' p'
      end
  end.

(** Run the dispatcher only as many steps as a slot request needs: until
    the slot is filled or the packet is fully decoded. *)
Fixpoint advance (fuel : nat) (r : request) (p : packet) : M packet :=
  match pending p with
  | None => ret p
  | Some _ =>
      sat <- satisfied r p ;;
      if sat : bool then ret p
      else match fuel with
           | O => out_of_fuel
           | S fuel' => p' <- dispatch_step p ;; advance fuel' r p'
           end
  end.

(** Modelled from the spec: packet construction.  Eager mode runs the
    dispatcher to completion at once; Lazy mode leaves the packet
    unstarted. *)
Definition NewPacket (reg : DecoderRegistry) (data : bytes) (lt : LinkType)
  (m : DecodeMethod) (fuel : nat) : M packet :=
  s <- new (OSpecificLayers specificLayers_zero) ;;
  let p := {| raw := data; layers := []; specific := s;
              pending := Some (registry_lookup reg lt, data);
              method := m |} in
  if m then ret p else decodeAll fuel p.

(** Modelled from the spec: an accessor call.  In Lazy mode it advances
    the packet as far as the request needs; in Eager mode it is a pure
    read. *)
Definition access (fuel : nat) (r : request) (p : packet) : M packet :=
  if method p then
    match r with
    | WantError | WantLayers => decodeAll fuel p
    | _ => advance fuel r p
    end
  else ret p.

Fixpoint access_all (fuel : nat) (rs : list request) (p : packet) : M packet :=
  match rs with
  | [] => ret p
  | r :: rs' => p' <- access fuel r p ;; access_all fuel rs' p'
  end.

(** Decode in Lazy mode, answer the requests [rs] in order, then force the
    full decode. *)
Definition lazy_forced (reg : DecoderRegistry) (data : bytes) (lt : LinkType)
  (fuel : nat) (rs : list request) : M packet :=
  p0 <- NewPacket reg data lt Lazy fuel ;;
  p1 <- access_all fuel rs p0 ;;
  access fuel WantLayers p1.

(** What a chain holds: the object behind each layer pointer. *)
Definition chain_contents (h : heap) (ls : list Layer) : list (option object) :=
  map (fun l => match l with Some a => h !! a | None => None end) ls.

(** The same packet under another evaluation mode. *)
Definition set_method (m : DecodeMethod) (p : packet) : packet :=
  {| raw := raw p; layers := layers p; specific := specific p;
     pending := pending p; method := m |}.

Definition outcome_map {A B} (f : A -> B) (o : outcome A) : outcome B :=
  match o with
  | Returned a h => Returned (f a) h
  | Panicked => Panicked
  | OutOfFuel => OutOfFuel
  end.

(** Invoke [d1] and then [d2] with the same [specificLayers] pointer, as
    two consecutive steps of one chain do. *)
Definition decode_seq (d1 d2 : decoder) (data1 data2 : bytes) (s : ptr)
  : M (decodeResult * decodeResult) :=
  r1 <- decode d1 data1 s ;;
  r2 <- decode d2 data2 s ;;
  ret (r1, r2).

(** ** Typing of the store

    Go's static types, read on the untyped store: a [Layer] value is nil
    or points to a layer object, an [error] value is nil or points to an
    error object. *)
Definition is_layer (h : heap) (p : Layer) : bool :=
  match p with
  | None => true
  | Some a => match h !! a with
              | Some (OPayload _) | Some (ODecodeFailure _) => true
              | _ => false
              end
  end.

Definition is_error (h : heap) (e : error) : bool :=
  match e with
  | None => true
  | Some a => match h !! a with
              | Some (OErrorString _) => true
              | _ => false
              end
  end.

Definition object_ok (h : heap) (o : object) : bool :=
  match o with
  | OSpecificLayers sl =>
      is_layer h (link sl) && is_layer h (network sl)
      && is_layer h (transport sl) && is_layer h (application sl)
      && is_layer h (errorLayer sl)
  | ODecodeFailure d => is_error h (DecodeFailure_err d)
  | OPayload _ | OErrorString _ => true
  end.

Definition store_ok (h : heap) : bool := forallb (object_ok h) h.

(** Two objects of the same Go type. *)
Definition same_kind (o1 o2 : object) : bool :=
  match o1, o2 with
  | OPayload _, OPayload _
  | ODecodeFailure _, ODecodeFailure _
  | OErrorString _, OErrorString _
  | OSpecificLayers _, OSpecificLayers _ => true
  | _, _ => false
  end.

(** [h'] holds, at every address of [h], an object of the same type. *)
Definition keeps_kinds (h h' : heap) : Prop :=
  forall (a : nat) (o : object),
    h !! a = Some o -> exists o', h' !! a = Some o' /\ same_kind o o' = true.

(** * The Docker client: containers

    The second source file holds five methods of the remote API client.
    Each builds a request path, sends one request through the client's
    [do] method and, where a body is expected, decodes it with
    [json.Unmarshal]. *)

(** [type ListContainersOptions struct { All bool; Limit int; Since string;
    Before string }] *)
Record ListContainersOptions := {
  All : bool;
  Limit : Z;
  Since : string;
  Before : string
}.

(** What the file uses and does not declare is taken as a parameter: the
    method [do] of the client (with the state of the connection and of
    the daemon behind it as [World]), the helper [queryString], the
    imported types [docker.ApiContainer] and [docker.Container], the
    pointer type [*docker.Config], and [json.Unmarshal] at the two target
    types, which yields the value left in the target and the error.  [Err]
    is the type of non-nil error values. *)
Class Client := {
  World : Type;
  Err : Type;
  ApiContainer : Type;
  Container : Type;
  Config : Type;
  queryString : option ListContainersOptions -> string;
  Client_do : string -> string -> option Config -> World
              -> (bytes * Z * option Err) * World;
  json_Unmarshal_ApiContainers : bytes -> list ApiContainer * option Err;
  json_Unmarshal_Container : bytes -> Container * option Err
}.

(** The request paths, as the methods build them. *)
Definition ListContainers_path `{Client} (opts : option ListContainersOptions)
  : string :=
  "/containers/ps?" +:+ queryString opts.

Definition InspectContainer_path (id : string) : string :=
  "/containers/" +:+ id +:+ "/json".

Definition CreateContainer_path : string := "/containers/create".

Definition KillContainer_path (id : string) : string :=
  "/containers/" +:+ id +:+ "/kill".

Definition RemoveContainer_path (id : string) : string :=
  "/containers/" +:+ id.

(** A nil slice result is the empty list; a nil [*docker.Container] is
    [None]. *)
Definition ListContainers `{Client} (opts : option ListContainersOptions)
    (w : World) : (list ApiContainer * option Err) * World :=
  let path := ListContainers_path opts in
  let '((body, _, err), w') := Client_do "GET" path None w in
  match err with
  | Some e => (([], Some e), w')
  | None =>
      let '(containers, err) := json_Unmarshal_ApiContainers body in
      match err with
      | Some e => (([], Some e), w')
      | None => ((containers, None), w')
      end
  end.

Definition InspectContainer `{Client} (id : string) (w : World)
  : (option Container * option Err) * World :=
  let path := InspectContainer_path id in
  let '((body, _, err), w') := Client_do "GET" path None w in
  match err with
  | Some e => ((None, Some e), w')
  | None =>
      let '(container, err) := json_Unmarshal_Container body in
      match err with
      | Some e => ((None, Some e), w')
      | None => ((Some container, None), w')
      end
  end.

Definition CreateContainer `{Client} (config : Config) (w : World)
  : (option Container * option Err) * World :=
  let '((body, _, err), w') :=
    Client_do "POST" CreateContainer_path (Some config) w in
  match err with
  | Some e => ((None, Some e), w')
  | None =>
      let '(container, err) := json_Unmarshal_Container body in
      match err with
      | Some e => ((None, Some e), w')
      | None => ((Some container, None), w')
      end
  end.

Definition KillContainer `{Client} (id : string) (w : World)
  : option Err * World :=
  let path := KillContainer_path id in
  let '((_, _, err), w') := Client_do "POST" path None w in
  match err with
  | Some e => (Some e, w')
  | None => (None, w')
  end.

Definition RemoveContainer `{Client} (id : string) (w : World)
  : option Err * World :=
  let '((_, _, err), w') :=
    Client_do "DELETE" (RemoveContainer_path id) None w in
  match err with
  | Some e => (Some e, w')
  | None => (None, w')
  end.

(** * Properties *)

(** ** The store *)

Section Store.
Implicit Types (h : heap) (o : object) (l a : loc).

Lemma lookup_new h o : (h ++ [o]) !! length h = Some o.
Proof. by apply list_lookup_middle. Qed.

Lemma lookup_new_old h o a : a < length h -> (h ++ [o]) !! a = h !! a.
Proof. intros Ha. by apply lookup_app_l. Qed.

Lemma lookup_new_Some h o a x : h !! a = Some x -> (h ++ [o]) !! a = Some x.
Proof.
  intros Ha. rewrite lookup_new_old; [done|]. by eapply lookup_lt_Some.
Qed.

Lemma lookup_new_beyond h o a : length h < a -> (h ++ [o]) !! a = None.
Proof. intros Ha. apply lookup_ge_None. rewrite length_app. simpl. lia. Qed.

(** Overwriting a [specificLayers] with a [specificLayers] changes no
    other view of the store. *)
Lemma Payload_at_store h l sl sl' p :
  h !! l = Some (OSpecificLayers sl) ->
  Payload_at (<[l := OSpecificLayers sl']> h) p = Payload_at h p.
Proof.
  intros Hl. destruct p as [a|]; [|done]. unfold Payload_at.
  destruct (decide (l = a)) as [->|Hne].
  - rewrite list_lookup_insert_eq; [|by eapply lookup_lt_Some].
    by rewrite Hl.
  - by rewrite list_lookup_insert_ne.
Qed.

Lemma Payload_at_new h o a pl :
  Payload_at h (Some a) = Some pl -> Payload_at (h ++ [o]) (Some a) = Some pl.
Proof.
  unfold Payload_at. destruct (h !! a) as [x|] eqn:Ha; [|done].
  intros Hx. by rewrite (lookup_new_Some _ _ _ _ Ha).
Qed.

Lemma specificLayers_at_new h o s sl :
  specificLayers_at h s = Some sl -> specificLayers_at (h ++ [o]) s = Some sl.
Proof.
  destruct s as [a|]; [|done]. unfold specificLayers_at.
  destruct (h !! a) as [x|] eqn:Ha; [|done].
  intros Hx. by rewrite (lookup_new_Some _ _ _ _ Ha).
Qed.

Lemma specificLayers_at_lookup h s sl :
  specificLayers_at h s = Some sl ->
  exists l, s = Some l /\ h !! l = Some (OSpecificLayers sl).
Proof.
  destruct s as [l|]; [|done]. unfold specificLayers_at.
  destruct (h !! l) as [[]|] eqn:Hl; try done.
  intros [= ->]. eauto.
Qed.
End Store.

(** ** The baseline decoders, run on an arbitrary store *)

Lemma decodeUnknown_run (data : bytes) (s : ptr) (h : heap) :
  decode decodeUnknown data s h
  = Returned (Build_decodeResult (Some (length h)) None None [])
             (h ++ [OErrorString "Link type not currently supported"]).
Proof. reflexivity. Qed.

Lemma decodePayload_run (data : bytes) (l : loc) (sl : specificLayers) (h : heap) :
  h !! l = Some (OSpecificLayers sl) ->
  decode decodePayload data (Some l) h
  = Returned (Build_decodeResult None (Some (length h)) None [])
             (<[l := OSpecificLayers (set_application (Some (length h)) sl)]>
                (h ++ [OPayload {| Data := data |}])).
Proof.
  intros Hl. cbn [decode decodePayload]. unfold decodePayload_func.
  unfold bind, new, load_specificLayers, bind, load, store, ret.
  by rewrite !(lookup_new_Some _ _ _ _ Hl).
Qed.

(** A nil [*specificLayers] makes [decodePayload] panic at the slot
    assignment. *)
Lemma decodePayload_nil (data : bytes) (h : heap) :
  decode decodePayload data None h = Panicked.
Proof. reflexivity. Qed.

(** What the store holds after [decodePayload]. *)
Lemma decodePayload_store (data : bytes) (l : loc) (sl : specificLayers) (h : heap) :
  h !! l = Some (OSpecificLayers sl) ->
  let h' := <[l := OSpecificLayers (set_application (Some (length h)) sl)]>
              (h ++ [OPayload {| Data := data |}]) in
  length h' = S (length h)
  /\ h' !! length h = Some (OPayload {| Data := data |})
  /\ h' !! l = Some (OSpecificLayers (set_application (Some (length h)) sl))
  /\ (forall a, a <> l -> a < length h -> h' !! a = h !! a).
Proof.
  intros Hl h'. pose proof (lookup_lt_Some _ _ _ Hl) as Hlt. subst h'.
  repeat split.
  - rewrite length_insert, length_app. simpl. lia.
  - rewrite list_lookup_insert_ne by lia. apply lookup_new.
  - apply list_lookup_insert_eq. rewrite length_app. simpl. lia.
  - intros a Hne Ha. rewrite list_lookup_insert_ne by done.
    by apply lookup_new_old.
Qed.

(** ** decodePayload *)

(** C2: for every byte span [data] (the empty one included) and every
    [specificLayers] struct that [s] points to, [decodePayload] returns
    without failure; the result's layer is a [Payload] holding exactly
    [data], there is no next decoder and no remaining bytes, and the
    application slot of the struct behind [s] is that [Payload] layer. *)
Theorem decodePayload_succeeds (data : bytes) (s : ptr) (h : heap)
    (sl : specificLayers) :
  specificLayers_at h s = Some sl ->
  exists out h' sl',
    decode decodePayload data s h = Returned out h'
    /\ err out = None
    /\ Payload_at h' (layer out) = Some {| Data := data |}
    /\ next out = None
    /\ left out = []
    /\ specificLayers_at h' s = Some sl'
    /\ application sl' = layer out.
Proof.
  intros Hs. apply specificLayers_at_lookup in Hs as (l & -> & Hl).
  destruct (decodePayload_store data l sl h Hl) as (_ & Hnew & Hsl & _).
  eexists _, _, _. split; [by apply decodePayload_run|].
  cbn [err layer next left]. unfold Payload_at, specificLayers_at.
  rewrite Hnew, Hsl. done.
Qed.

Lemma decodePayload_succeeds_witness :
  specificLayers_at [OSpecificLayers specificLayers_zero] (Some 0)
    = Some specificLayers_zero
  /\ exists out h' sl',
       decode decodePayload [] (Some 0) [OSpecificLayers specificLayers_zero]
         = Returned out h'
       /\ err out = None
       /\ Payload_at h' (layer out) = Some {| Data := [] |}
       /\ next out = None
       /\ left out = []
       /\ specificLayers_at h' (Some 0) = Some sl'
       /\ application sl' = layer out.
Proof.
  split; [reflexivity|].
  apply (decodePayload_succeeds [] (Some 0)
           [OSpecificLayers specificLayers_zero] specificLayers_zero).
  reflexivity.
Defined.

(** C8: [decodePayload] writes the application slot only: the link,
    network, transport and error slots of the struct behind [s] keep
    their values, and so does every other object already in the store. *)
Theorem decodePayload_frame (data : bytes) (s : ptr) (h : heap)
    (sl : specificLayers) :
  specificLayers_at h s = Some sl ->
  exists out h' sl',
    decode decodePayload data s h = Returned out h'
    /\ specificLayers_at h' s = Some sl'
    /\ link sl' = link sl
    /\ network sl' = network sl
    /\ transport sl' = transport sl
    /\ errorLayer sl' = errorLayer sl
    /\ (forall a, Some a <> s -> a < length h -> h' !! a = h !! a).
Proof.
  intros Hs. apply specificLayers_at_lookup in Hs as (l & -> & Hl).
  destruct (decodePayload_store data l sl h Hl) as (_ & _ & Hsl & Hold).
  eexists _, _, _. split; [by apply decodePayload_run|].
  unfold specificLayers_at. rewrite Hsl. repeat split; try done.
  intros a Ha Hlt. apply Hold; [congruence|done].
Qed.

Lemma decodePayload_frame_witness :
  let sl := {| link := Some 1; network := Some 2; transport := Some 3;
               application := Some 4; errorLayer := Some 5 |} in
  let h := [OSpecificLayers sl; OPayload {| Data := [x01] |};
            OPayload {| Data := [x02] |}; OPayload {| Data := [x03] |};
            OPayload {| Data := [x04] |}; ODecodeFailure
              {| DecodeFailure_data := []; DecodeFailure_err := None |}] in
  specificLayers_at h (Some 0) = Some sl
  /\ exists out h' sl',
       decode decodePayload [x45; x00] (Some 0) h = Returned out h'
       /\ specificLayers_at h' (Some 0) = Some sl'
       /\ link sl' = Some 1
       /\ network sl' = Some 2
       /\ transport sl' = Some 3
       /\ errorLayer sl' = Some 5
       /\ (forall a, Some a <> Some 0 -> a < length h -> h' !! a = h !! a).
Proof.
  intros sl h. split; [reflexivity|].
  apply (decodePayload_frame [x45; x00] (Some 0) h sl). reflexivity.
Defined.

(** C10: after [decodePayload], the layer of the result and the
    application slot are one and the same non-nil pointer, and the object
    behind it is the [Payload] of the input bytes; so whatever is later
    written through one is read through the other. *)
Theorem decodePayload_alias (data : bytes) (s : ptr) (h : heap)
    (sl : specificLayers) :
  specificLayers_at h s = Some sl ->
  exists out h' sl' a,
    decode decodePayload data s h = Returned out h'
    /\ specificLayers_at h' s = Some sl'
    /\ layer out = Some a
    /\ application sl' = Some a
    /\ h' !! a = Some (OPayload {| Data := data |})
    /\ (forall h'', Payload_at h'' (application sl') = Payload_at h'' (layer out)).
Proof.
  intros Hs. apply specificLayers_at_lookup in Hs as (l & -> & Hl).
  destruct (decodePayload_store data l sl h Hl) as (_ & Hnew & Hsl & _).
  eexists _, _, _, (length h). split; [by apply decodePayload_run|].
  unfold specificLayers_at. rewrite Hsl. done.
Qed.

Lemma decodePayload_alias_witness :
  specificLayers_at [OSpecificLayers specificLayers_zero] (Some 0)
    = Some specificLayers_zero
  /\ exists out h' sl' a,
       decode decodePayload [x45; x00] (Some 0)
         [OSpecificLayers specificLayers_zero] = Returned out h'
       /\ specificLayers_at h' (Some 0) = Some sl'
       /\ layer out = Some a
       /\ application sl' = Some a
       /\ h' !! a = Some (OPayload {| Data := [x45; x00] |})
       /\ (forall h'', Payload_at h'' (application sl')
                       = Payload_at h'' (layer out)).
Proof.
  split; [reflexivity|].
  apply (decodePayload_alias [x45; x00] (Some 0)
           [OSpecificLayers specificLayers_zero] specificLayers_zero).
  reflexivity.
Defined.

(** ** decodeUnknown *)

(** C3: for every byte span, every [specificLayers] pointer (nil
    included) and every store, [decodeUnknown] returns a result whose
    failure is set and whose layer, next decoder and remainder are
    absent, and no [specificLayers] struct of the store is changed. *)
Theorem decodeUnknown_fails (data : bytes) (s : ptr) (h : heap) :
  exists out h',
    decode decodeUnknown data s h = Returned out h'
    /\ is_Some (err out)
    /\ layer out = None
    /\ next out = None
    /\ left out = []
    /\ (forall s', specificLayers_at h' s' = specificLayers_at h s').
Proof.
  eexists _, _. split; [apply decodeUnknown_run|].
  cbn [err layer next left]. repeat split; [by eexists|].
  intros [a|]; [|done]. unfold specificLayers_at.
  destruct (decide (a < length h)) as [Ha|Ha].
  - by rewrite lookup_new_old.
  - rewrite (lookup_ge_None_2 h a) by lia.
    destruct (decide (a = length h)) as [->|Hne].
    + by rewrite lookup_new.
    + rewrite lookup_new_beyond by lia. done.
Qed.

(** ** decoderFunc, DecodeMethod, DecodeFailure *)

(** C9: calling [decode] on a function wrapped as a decoder is calling
    the function: same result, same store, same panic. *)
Theorem decoderFunc_decode (d : bytes -> ptr -> M decodeResult)
    (data : bytes) (s : ptr) :
  decode (decoderFunc d) data s = d data s.
Proof. reflexivity. Qed.

(** C7: a [DecodeMethod] is [Lazy] or [Eager], and the two differ. *)
Theorem DecodeMethod_two_values :
  (forall m : DecodeMethod, m = Lazy \/ m = Eager) /\ Lazy <> Eager.
Proof.
  split.
  - intros [|]; [by left | by right].
  - discriminate.
Qed.

(** C6: a [DecodeFailure] built from bytes [d] and error [e] answers
    [Payload()] with [d], [Error()] with [e] and [LayerType()] with
    [TYPE_DECODE_FAILURE]; the three calls change nothing in the store. *)
Theorem DecodeFailure_exposes_fields (d : bytes) (e : error) (h : heap) :
  DecodeFailure_observe d e h
  = Returned (d, e, TYPE_DECODE_FAILURE)
      (h ++ [ODecodeFailure {| DecodeFailure_data := d;
                               DecodeFailure_err := e |}]).
Proof.
  unfold DecodeFailure_observe, DecodeFailure_Payload, DecodeFailure_Error,
    DecodeFailure_LayerType, load_DecodeFailure, bind, new, load, ret.
  by rewrite !lookup_new.
Qed.

(** ** Re-invocation *)

(** C5: invoking [decodePayload] twice on the same bytes, each time with
    a fresh [specificLayers], gives two results whose layers hold the
    same [Payload] content and whose next decoder, remainder and failure
    agree; invoking [decodeUnknown] twice gives two results whose layer,
    next decoder and remainder agree and whose failures carry the same
    text. *)
Theorem baseline_decoders_idempotent (data : bytes) (h : heap) :
  (exists r1 r2 h',
     reinvoke decodePayload data h = Returned (r1, r2) h'
     /\ Payload_at h' (layer r1) = Some {| Data := data |}
     /\ Payload_at h' (layer r2) = Some {| Data := data |}
     /\ next r1 = next r2
     /\ left r1 = left r2
     /\ err r1 = err r2)
  /\ (exists r1 r2 h',
        reinvoke decodeUnknown data h = Returned (r1, r2) h'
        /\ layer r1 = layer r2
        /\ next r1 = next r2
        /\ left r1 = left r2
        /\ error_text h' (err r1)
           = Some "Link type not currently supported"%string
        /\ error_text h' (err r2)
           = Some "Link type not currently supported"%string).
Proof.
  split.
  - set (h1 := h ++ [OSpecificLayers specificLayers_zero]).
    pose proof (lookup_new h (OSpecificLayers specificLayers_zero)) as Hs1.
    fold h1 in Hs1.
    pose proof (decodePayload_run data _ _ _ Hs1) as Hrun1.
    destruct (decodePayload_store data _ _ _ Hs1) as (_ & Hp1 & Hsl1 & _).
    set (h2 := <[length h := _]> (h1 ++ _)) in *.
    set (h3 := h2 ++ [OSpecificLayers specificLayers_zero]).
    pose proof (lookup_new h2 (OSpecificLayers specificLayers_zero)) as Hs2.
    fold h3 in Hs2.
    pose proof (decodePayload_run data _ _ _ Hs2) as Hrun2.
    destruct (decodePayload_store data _ _ _ Hs2) as (_ & Hp2 & _ & _).
    set (h4 := <[length h2 := _]> (h3 ++ _)) in *.
    eexists _, _, h4. split.
    { unfold reinvoke, bind. cbn [new]. fold h1. rewrite Hrun1.
      fold h3. rewrite Hrun2. reflexivity. }
    cbn [layer next left err]. repeat split.
    + subst h4. erewrite Payload_at_store by exact (lookup_new_Some _ _ _ _ Hs2).
      apply Payload_at_new. subst h3. apply Payload_at_new.
      unfold Payload_at. by rewrite Hp1.
    + unfold Payload_at. by rewrite Hp2.
  - eexists _, _, _. split; [reflexivity|].
    cbn [layer next left err set_err decodeResult_zero].
    repeat split; unfold error_text.
    + by rewrite (lookup_new_Some _ _ _ _
                    (lookup_new_Some _ _ _ _ (lookup_new _ _))).
    + by rewrite lookup_new.
Qed.

(** ** The dispatcher *)

Section Dispatcher.
Implicit Types (p q : packet) (h : heap) (r : request) (m : DecodeMethod).

Lemma decodeAll_unfold fuel p :
  decodeAll fuel p
  = match pending p with
    | None => ret p
    | Some _ =>
        match fuel with
        | O => out_of_fuel
        | S fuel' => p' <- dispatch_step p ;; decodeAll fuel' p'
        end
    end.
Proof. by destruct fuel. Qed.

Lemma advance_unfold fuel r p :
  advance fuel r p
  = match pending p with
    | None => ret p
    | Some _ =>
        sat <- satisfied r p ;;
        if sat : bool then ret p
        else match fuel with
             | O => out_of_fuel
             | S fuel' => p' <- dispatch_step p ;; advance fuel' r p'
             end
    end.
Proof. by destruct fuel. Qed.

Lemma decodeAll_done fuel p : pending p = None -> decodeAll fuel p = ret p.
Proof. intros Hp. by rewrite decodeAll_unfold, Hp. Qed.

(** A step keeps the evaluation mode, and does not look at it. *)
Lemma dispatch_step_method p h q h' :
  dispatch_step p h = Returned q h' -> method q = method p.
Proof.
  unfold dispatch_step. destruct (pending p) as [[d data]|].
  - unfold bind. destruct (decode d data (specific p) h) as [res h1| |]; try done.
    destruct (err res).
    + cbn. by intros [= <- _].
    + destruct (next res), (left res); cbn; by intros [= <- _].
  - cbn. by intros [= <- _].
Qed.

Lemma dispatch_step_set_method m p h :
  dispatch_step (set_method m p) h
  = outcome_map (set_method m) (dispatch_step p h).
Proof.
  unfold dispatch_step. cbn [pending set_method specific layers].
  destruct (pending p) as [[d data]|]; [|done].
  unfold bind. destruct (decode d data (specific p) h) as [res h1| |]; try done.
  destruct (err res); [done|].
  by destruct (next res), (left res).
Qed.

Lemma decodeAll_set_method m fuel p h :
  decodeAll fuel (set_method m p) h
  = outcome_map (set_method m) (decodeAll fuel p h).
Proof.
  revert p h. induction fuel as [|fuel IH]; intros p h.
  - cbn. by destruct (pending p).
  - cbn [decodeAll]. cbn [pending set_method].
    destruct (pending p); [|done].
    unfold bind. rewrite dispatch_step_set_method.
    destruct (dispatch_step p h) as [p1 h1| |]; cbn; [apply IH|done..].
Qed.

(** The full decode ends fully decoded. *)
Lemma decodeAll_pending fuel p h q h' :
  decodeAll fuel p h = Returned q h' -> pending q = None.
Proof.
  revert p h. induction fuel as [|fuel IH]; intros p h; cbn [decodeAll].
  - destruct (pending p) eqn:Hp; [done|]. by intros [= <- _].
  - destruct (pending p) eqn:Hp; [|by intros [= <- _]].
    unfold bind. destruct (dispatch_step p h) as [p1 h1| |]; try done.
    apply IH.
Qed.

Lemma decodeAll_method fuel p h q h' :
  decodeAll fuel p h = Returned q h' -> method q = method p.
Proof.
  revert p h. induction fuel as [|fuel IH]; intros p h; cbn [decodeAll].
  - destruct (pending p); [done|]. by intros [= <- _].
  - destruct (pending p); [|by intros [= <- _]].
    unfold bind. destruct (dispatch_step p h) as [p1 h1| |] eqn:Hstep; try done.
    intros Hq. rewrite (IH _ _ Hq). by eapply dispatch_step_method.
Qed.

(** More fuel does not change a decode that returned. *)
Lemma decodeAll_more_fuel fuel p h q h' :
  decodeAll fuel p h = Returned q h' ->
  decodeAll (S fuel) p h = Returned q h'.
Proof.
  revert p h. induction fuel as [|fuel IH]; intros p h.
  - cbn. by destruct (pending p).
  - rewrite (decodeAll_unfold (S fuel)), (decodeAll_unfold (S (S fuel))).
    destruct (pending p); [|done].
    unfold bind. destruct (dispatch_step p h) as [p1 h1| |]; try done.
    apply IH.
Qed.

Lemma advance_method fuel r p h q h' :
  advance fuel r p h = Returned q h' -> method q = method p.
Proof.
  revert p h. induction fuel as [|fuel IH]; intros p h;
    rewrite advance_unfold; (destruct (pending p); [|by intros [= <- _]]);
    unfold bind, satisfied;
    destruct (specificLayers_at h (specific p)) as [sl|];
    try destruct (bool_decide _); try done; try (by intros [= <- _]).
  all: destruct (dispatch_step p h) as [p1 h1| |] eqn:Hstep; try done.
  all: intros Hq; rewrite (IH _ _ Hq); by eapply dispatch_step_method.
Qed.

(** Answering a slot request stops on the way to the full decode: from
    where it stops, the full decode ends where it would have ended. *)
Lemma advance_decodeAll fuel r p h q h' :
  decodeAll fuel p h = Returned q h' ->
  exists p1 h1,
    advance fuel r p h = Returned p1 h1
    /\ decodeAll fuel p1 h1 = Returned q h'.
Proof.
  revert p h. induction fuel as [|fuel IH]; intros p h Hall.
  - cbn in Hall. cbn [advance]. destruct (pending p) eqn:Hp; [done|].
    exists p, h. split; [done|]. cbn. by rewrite Hp.
  - rewrite advance_unfold. pose proof Hall as Hall'.
    rewrite decodeAll_unfold in Hall'.
    destruct (pending p) eqn:Hp; [|by exists p, h].
    assert (Hstop : exists p1 h1, ret (A := packet) p h = Returned p1 h1
              /\ decodeAll (S fuel) p1 h1 = Returned q h')
      by (by exists p, h).
    unfold bind in Hall'.
    destruct (dispatch_step p h) as [p1 h1| |] eqn:Hstep; try done.
    destruct (IH _ _ Hall') as (p2 & h2 & Hadv & Hrest).
    assert (Hgo : exists p2 h2,
               (p' <- dispatch_step p ;; advance fuel r p') h = Returned p2 h2
               /\ decodeAll (S fuel) p2 h2 = Returned q h').
    { exists p2, h2. unfold bind. rewrite Hstep. split; [done|].
      by apply decodeAll_more_fuel. }
    unfold bind at 1, satisfied.
    destruct (specificLayers_at h (specific p)) as [sl|];
      [destruct (bool_decide _)|]; done.
Qed.
End Dispatcher.

(** ** Unknown link type *)

(** The cause that [decodeUnknown] reports is not the text
    "unsupported link type". *)
Lemma decodeUnknown_cause_counterexample :
  ~ (forall (data : bytes) (s : ptr) (h : heap),
       exists out h',
         decode decodeUnknown data s h = Returned out h'
         /\ error_text h' (err out) = Some "unsupported link type"%string).
Proof.
  intros Hall. destruct (Hall [] None []) as (out & h' & Hrun & Htext).
  rewrite decodeUnknown_run in Hrun. injection Hrun as <- <-.
  discriminate Htext.
Qed.

(** C4, amended: the failure of [decodeUnknown] carries the cause
    "Link type not currently supported"; and decoding a packet whose link
    type is not registered, in either mode and once the full chain is
    asked for, returns (it neither panics nor runs out of steps) a fully
    decoded packet whose chain is exactly one [DecodeFailure] layer,
    holding the input bytes and an error with that cause. *)
Theorem unknown_link_type_chain (reg : DecoderRegistry) (lt : LinkType)
    (data : bytes) (s : ptr) (m : DecodeMethod) (fuel : nat) (h : heap) :
  reg !! lt = None ->
  (exists out h',
     decode decodeUnknown data s h = Returned out h'
     /\ error_text h' (err out)
        = Some "Link type not currently supported"%string)
  /\ (exists p h' f e,
        (p0 <- NewPacket reg data lt m (S fuel) ;;
         access (S fuel) WantLayers p0) h = Returned p h'
        /\ layers p = [f]
        /\ pending p = None
        /\ DecodeFailure_at h' f
           = Some {| DecodeFailure_data := data; DecodeFailure_err := e |}
        /\ error_text h' e = Some "Link type not currently supported"%string).
Proof.
  intros Hreg. split.
  - eexists _, _. split; [apply decodeUnknown_run|].
    cbn [err]. unfold error_text. by rewrite lookup_new.
  - set (h1 := h ++ [OSpecificLayers specificLayers_zero]).
    set (h2 := h1 ++ [OErrorString "Link type not currently supported"]).
    set (df := {| DecodeFailure_data := data;
                  DecodeFailure_err := Some (length h1) |}).
    exists {| raw := data; layers := [Some (length h2)];
              specific := Some (length h); pending := None; method := m |},
           (h2 ++ [ODecodeFailure df]), (Some (length h2)), (Some (length h1)).
    split.
    { unfold NewPacket, registry_lookup, bind. rewrite Hreg. cbn [new].
      destruct m; cbn [ret access method decodeAll pending].
      - unfold bind. cbn [dispatch_step pending specific].
        unfold bind. rewrite decodeUnknown_run. cbn [err new ret].
        by rewrite decodeAll_done.
      - unfold bind. cbn [dispatch_step pending specific].
        unfold bind. rewrite decodeUnknown_run. cbn [err new ret].
        by rewrite decodeAll_done. }
    cbn [layers pending]. repeat split.
    + unfold DecodeFailure_at. by rewrite lookup_new.
    + unfold error_text. subst h2.
      by rewrite (lookup_new_Some _ _ _ _ (lookup_new _ _)).
Qed.

Lemma unknown_link_type_chain_witness :
  (∅ : DecoderRegistry) !! 1%N = None
  /\ exists p h' f e,
       (p0 <- NewPacket ∅ [x45; x00] 1%N Eager 1 ;;
        access 1 WantLayers p0) [] = Returned p h'
       /\ layers p = [f]
       /\ pending p = None
       /\ DecodeFailure_at h' f
          = Some {| DecodeFailure_data := [x45; x00]; DecodeFailure_err := e |}
       /\ error_text h' e = Some "Link type not currently supported"%string.
Proof.
  split; [reflexivity|].
  apply (unknown_link_type_chain ∅ 1%N [x45; x00] None Eager 0 []).
  reflexivity.
Defined.

(** ** Mode equivalence *)

(** C1: whenever the Eager decode of [data] under link type [lt]
    returns, the Lazy decode of the same input, after answering any
    sequence of accessor requests and then forcing the full decode,
    returns too, in the same store and fully decoded, with the same
    ordered chain of layers (same pointers, hence same contents) and the
    same [specificLayers] (same struct, same slots). *)
Theorem mode_equivalence (reg : DecoderRegistry) (data : bytes)
    (lt : LinkType) (fuel : nat) (rs : list request) (h : heap)
    (pe : packet) (he : heap) :
  NewPacket reg data lt Eager fuel h = Returned pe he ->
  exists pl,
    lazy_forced reg data lt fuel rs h = Returned pl he
    /\ pending pe = None
    /\ pending pl = None
    /\ layers pl = layers pe
    /\ chain_contents he (layers pl) = chain_contents he (layers pe)
    /\ specific pl = specific pe
    /\ specificLayers_at he (specific pl) = specificLayers_at he (specific pe).
Proof.
  intros Heager. unfold NewPacket, bind in Heager. cbn [new Eager] in Heager.
  set (h1 := h ++ [OSpecificLayers specificLayers_zero]) in *.
  set (p0 := {| raw := data; layers := []; specific := Some (length h);
                pending := Some (registry_lookup reg lt, data);
                method := Eager |}) in *.
  pose proof (decodeAll_pending _ _ _ _ _ Heager) as Hdone.
  assert (Hlazy : decodeAll fuel (set_method Lazy p0) h1
                  = Returned (set_method Lazy pe) he)
    by (by rewrite decodeAll_set_method, Heager).
  assert (Hinv : forall p hp,
             method p = Lazy ->
             decodeAll fuel p hp = Returned (set_method Lazy pe) he ->
             exists pl,
               (p1 <- access_all fuel rs p ;; access fuel WantLayers p1) hp
               = Returned pl he
               /\ pl = set_method Lazy pe).
  { clear Heager Hlazy. induction rs as [|r rs IH]; intros p hp Hm Hall.
    - exists (set_method Lazy pe). unfold bind. cbn [access_all ret].
      unfold access. by rewrite Hm.
    - assert (Hacc : exists p1 h1',
                 access fuel r p hp = Returned p1 h1'
                 /\ method p1 = Lazy
                 /\ decodeAll fuel p1 h1' = Returned (set_method Lazy pe) he).
      { unfold access. rewrite Hm. cbn [Lazy].
        assert (Hfull : exists p1 h1',
                   decodeAll fuel p hp = Returned p1 h1'
                   /\ method p1 = Lazy
                   /\ decodeAll fuel p1 h1' = Returned (set_method Lazy pe) he).
        { eexists _, _. split; [exact Hall|]. split; [done|].
          by rewrite decodeAll_done. }
        destruct r; try exact Hfull.
        all: match goal with
             | |- context [advance _ ?r' _ _] =>
                 destruct (advance_decodeAll fuel r' _ _ _ _ Hall)
                   as (p1 & h1' & Hadv & Hrest); rewrite Hadv
             end.
        all: exists p1, h1'; split; [done|]; split; [|done].
        all: by rewrite (advance_method _ _ _ _ _ _ Hadv). }
      destruct Hacc as (p1 & h1' & Hacc & Hm1 & Hall1).
      destruct (IH _ _ Hm1 Hall1) as (pl & Hrun & ->).
      exists (set_method Lazy pe). split; [|done].
      unfold bind in *. cbn [access_all]. unfold bind. by rewrite Hacc. }
  destruct (Hinv (set_method Lazy p0) h1 eq_refl Hlazy) as (pl & Hrun & ->).
  exists (set_method Lazy pe). split; [|done].
  unfold lazy_forced, NewPacket, bind at 1 2. cbn [new Lazy ret]. exact Hrun.
Qed.

(** With no request in between, the two modes agree on every outcome:
    the forced Lazy decode returns, panics or runs out of steps exactly
    when the Eager decode does. *)
Lemma lazy_forced_eager (reg : DecoderRegistry) (data : bytes)
    (lt : LinkType) (fuel : nat) (h : heap) :
  lazy_forced reg data lt fuel [] h
  = outcome_map (set_method Lazy) (NewPacket reg data lt Eager fuel h).
Proof.
  unfold lazy_forced, NewPacket, bind. cbn [new Lazy Eager ret access_all].
  unfold access. cbn [method]. cbn [Lazy].
  set (p0 := {| raw := data; layers := []; specific := Some (length h);
                pending := Some (registry_lookup reg lt, data);
                method := false |}).
  apply (decodeAll_set_method true fuel p0).
Qed.

(** ** The two modes on a two-layer packet *)

Section TwoLayers.
Let reg : DecoderRegistry := Register 1%N test_link_decoder ∅.
Let data : bytes := [x45; x00; x14].
Let he : heap :=
  [OSpecificLayers {| link := Some 1; network := None; transport := None;
                      application := Some 2; errorLayer := None |};
   OPayload {| Data := [x45] |};
   OPayload {| Data := [x00; x14] |}].

(** Eager: link layer, then the payload layer in the application slot. *)
Example eager_two_layers :
  NewPacket reg data 1%N Eager 2 []
  = Returned {| raw := data; layers := [Some 1; Some 2];
                specific := Some 0; pending := None; method := Eager |} he.
Proof. vm_compute. reflexivity. Qed.

(** Lazy: asking for the link layer runs one step only. *)
Example lazy_link_one_step :
  (p0 <- NewPacket reg data 1%N Lazy 2 ;; access 2 WantLink p0) []
  = Returned {| raw := data; layers := [Some 1]; specific := Some 0;
                pending := Some (decodePayload, [x00; x14]);
                method := Lazy |}
      [OSpecificLayers {| link := Some 1; network := None;
                          transport := None; application := None;
                          errorLayer := None |};
       OPayload {| Data := [x45] |}].
Proof. vm_compute. reflexivity. Qed.

(** Too little fuel is reported, not returned as a partial decode. *)
Example eager_out_of_fuel :
  NewPacket reg data 1%N Eager 1 [] = OutOfFuel.
Proof. vm_compute. reflexivity. Qed.
End TwoLayers.

Lemma mode_equivalence_witness :
  let reg : DecoderRegistry := Register 1%N test_link_decoder ∅ in
  let pe := {| raw := [x45; x00; x14]; layers := [Some 1; Some 2];
               specific := Some 0; pending := None; method := Eager |} in
  let he := [OSpecificLayers {| link := Some 1; network := None;
                                transport := None; application := Some 2;
                                errorLayer := None |};
             OPayload {| Data := [x45] |};
             OPayload {| Data := [x00; x14] |}] in
  NewPacket reg [x45; x00; x14] 1%N Eager 2 [] = Returned pe he
  /\ exists pl,
       lazy_forced reg [x45; x00; x14] 1%N 2 [WantLink; WantNetwork] []
         = Returned pl he
       /\ pending pe = None
       /\ pending pl = None
       /\ layers pl = layers pe
       /\ chain_contents he (layers pl) = chain_contents he (layers pe)
       /\ specific pl = specific pe
       /\ specificLayers_at he (specific pl)
          = specificLayers_at he (specific pe).
Proof.
  intros reg pe he. split; [vm_compute; reflexivity|].
  apply (mode_equivalence reg [x45; x00; x14] 1%N 2 [WantLink; WantNetwork]
           [] pe he).
  vm_compute. reflexivity.
Defined.

(** * Further properties of the decoders *)

(** ** When decodePayload panics *)

Lemma decodePayload_no_struct (data : bytes) (s : ptr) (h : heap) :
  specificLayers_at h s = None -> decode decodePayload data s h = Panicked.
Proof.
  intros Hs. destruct s as [l|]; [|done]. cbn [decode decodePayload].
  unfold decodePayload_func, bind, new, load_specificLayers, bind, load.
  unfold specificLayers_at in Hs.
  destruct (h !! l) as [o|] eqn:Hl.
  - rewrite (lookup_new_Some _ _ _ _ Hl). by destruct o.
  - apply lookup_ge_None in Hl.
    destruct (decide (l = length h)) as [->|Hne].
    + by rewrite lookup_new.
    + by rewrite lookup_new_beyond by lia.
Qed.


(** ** Consecutive decoders on one specificLayers *)

(** X2: when [decodePayload] runs twice on the same [specificLayers],
    the application slot holds the layer of the second run only; the
    layer of the first run is another object, still in the store with its
    own bytes, and the four other slots keep their values. *)
Theorem decodePayload_overwrites (data1 data2 : bytes) (s : ptr) (h : heap)
    (sl : specificLayers) :
  specificLayers_at h s = Some sl ->
  exists r1 r2 h' sl',
    decode_seq decodePayload decodePayload data1 data2 s h
      = Returned (r1, r2) h'
    /\ specificLayers_at h' s = Some sl'
    /\ application sl' = layer r2
    /\ layer r1 <> layer r2
    /\ Payload_at h' (layer r1) = Some {| Data := data1 |}
    /\ Payload_at h' (layer r2) = Some {| Data := data2 |}
    /\ link sl' = link sl
    /\ network sl' = network sl
    /\ transport sl' = transport sl
    /\ errorLayer sl' = errorLayer sl.
Proof.
  intros Hs. apply specificLayers_at_lookup in Hs as (l & -> & Hl).
  pose proof (decodePayload_run data1 l sl h Hl) as Hrun1.
  destruct (decodePayload_store data1 l sl h Hl) as (Hlen1 & Hp1 & Hsl1 & _).
  set (h1 := <[l := _]> (h ++ _)) in *.
  pose proof (decodePayload_run data2 l _ h1 Hsl1) as Hrun2.
  destruct (decodePayload_store data2 l _ h1 Hsl1) as (_ & Hp2 & Hsl2 & Hold2).
  set (h2 := <[l := _]> (h1 ++ _)) in *.
  pose proof (lookup_lt_Some _ _ _ Hl) as Hlt.
  eexists _, _, h2, _. split.
  { unfold decode_seq, bind. rewrite Hrun1, Hrun2. reflexivity. }
  cbn [layer]. unfold specificLayers_at, Payload_at.
  rewrite Hsl2, Hp2, Hold2, Hp1 by lia.
  repeat split; try done.
  intros [= Heq]. lia.
Qed.

Lemma decodePayload_overwrites_witness :
  let sl := {| link := Some 1; network := None; transport := None;
               application := None; errorLayer := None |} in
  let h := [OSpecificLayers sl; OPayload {| Data := [x45] |}] in
  specificLayers_at h (Some 0) = Some sl
  /\ exists r1 r2 h' sl',
       decode_seq decodePayload decodePayload [x00] [x14] (Some 0) h
         = Returned (r1, r2) h'
       /\ specificLayers_at h' (Some 0) = Some sl'
       /\ application sl' = layer r2
       /\ layer r1 <> layer r2
       /\ Payload_at h' (layer r1) = Some {| Data := [x00] |}
       /\ Payload_at h' (layer r2) = Some {| Data := [x14] |}
       /\ link sl' = link sl
       /\ network sl' = network sl
       /\ transport sl' = transport sl
       /\ errorLayer sl' = errorLayer sl.
Proof.
  intros sl h. split; [reflexivity|].
  apply (decodePayload_overwrites [x00] [x14] (Some 0) h sl). reflexivity.
Defined.

(** X3: a failing decoder after [decodePayload] does not undo it: when
    [decodeUnknown] runs after [decodePayload] on the same
    [specificLayers], the second result carries a failure and no layer,
    and the application slot still holds the payload layer of the first
    run, with its bytes. *)
Theorem decodeUnknown_after_decodePayload (data1 data2 : bytes) (s : ptr)
    (h : heap) (sl : specificLayers) :
  specificLayers_at h s = Some sl ->
  exists r1 r2 h' sl',
    decode_seq decodePayload decodeUnknown data1 data2 s h
      = Returned (r1, r2) h'
    /\ is_Some (err r2)
    /\ layer r2 = None
    /\ specificLayers_at h' s = Some sl'
    /\ application sl' = layer r1
    /\ Payload_at h' (layer r1) = Some {| Data := data1 |}.
Proof.
  intros Hs. apply specificLayers_at_lookup in Hs as (l & -> & Hl).
  pose proof (decodePayload_run data1 l sl h Hl) as Hrun1.
  destruct (decodePayload_store data1 l sl h Hl) as (_ & Hp1 & Hsl1 & _).
  set (h1 := <[l := _]> (h ++ _)) in *.
  eexists _, _, _, _. split.
  { unfold decode_seq, bind. rewrite Hrun1, decodeUnknown_run. reflexivity. }
  cbn [err layer]. unfold specificLayers_at, Payload_at.
  rewrite (lookup_new_Some _ _ _ _ Hsl1), (lookup_new_Some _ _ _ _ Hp1).
  repeat split; by eauto.
Qed.

Lemma decodeUnknown_after_decodePayload_witness :
  specificLayers_at [OSpecificLayers specificLayers_zero] (Some 0)
    = Some specificLayers_zero
  /\ exists r1 r2 h' sl',
       decode_seq decodePayload decodeUnknown [x45] [x00] (Some 0)
         [OSpecificLayers specificLayers_zero] = Returned (r1, r2) h'
       /\ is_Some (err r2)
       /\ layer r2 = None
       /\ specificLayers_at h' (Some 0) = Some sl'
       /\ application sl' = layer r1
       /\ Payload_at h' (layer r1) = Some {| Data := [x45] |}.
Proof.
  split; [reflexivity|].
  apply (decodeUnknown_after_decodePayload [x45] [x00] (Some 0)
           [OSpecificLayers specificLayers_zero] specificLayers_zero).
  reflexivity.
Defined.

(** ** Fresh objects *)

(** X4: each call of [decodeUnknown] makes its own error value and each
    call of [decodePayload] its own layer: two consecutive calls on the
    same bytes return two different non-nil errors, respectively two
    different non-nil layers. *)
Theorem reinvoke_fresh (data : bytes) (h : heap) :
  (exists r1 r2 h',
     reinvoke decodeUnknown data h = Returned (r1, r2) h'
     /\ is_Some (err r1) /\ is_Some (err r2) /\ err r1 <> err r2)
  /\ (exists r1 r2 h',
        reinvoke decodePayload data h = Returned (r1, r2) h'
        /\ is_Some (layer r1) /\ is_Some (layer r2)
        /\ layer r1 <> layer r2).
Proof.
  split.
  - eexists _, _, _. split; [reflexivity|].
    cbn [err set_err decodeResult_zero]. repeat split; try by eexists.
    intros [= Heq]. rewrite !length_app in Heq. simpl in Heq. lia.
  - set (h1 := h ++ [OSpecificLayers specificLayers_zero]).
    pose proof (lookup_new h (OSpecificLayers specificLayers_zero)) as Hs1.
    fold h1 in Hs1.
    pose proof (decodePayload_run data _ _ _ Hs1) as Hrun1.
    destruct (decodePayload_store data _ _ _ Hs1) as (Hlen1 & _).
    set (h2 := <[length h := _]> (h1 ++ _)) in *.
    set (h3 := h2 ++ [OSpecificLayers specificLayers_zero]).
    pose proof (lookup_new h2 (OSpecificLayers specificLayers_zero)) as Hs2.
    fold h3 in Hs2.
    pose proof (decodePayload_run data _ _ _ Hs2) as Hrun2.
    eexists _, _, _. split.
    { unfold reinvoke, bind. cbn [new]. fold h1. rewrite Hrun1.
      fold h3. rewrite Hrun2. reflexivity. }
    cbn [layer]. repeat split; try by eexists.
    intros [= Heq]. subst h3. rewrite length_app in Heq. simpl in Heq. lia.
Qed.

(** ** The methods of DecodeFailure on any receiver *)

(** X5: [LayerType()] answers [TYPE_DECODE_FAILURE] on every receiver,
    the nil one included; [Payload()] and [Error()] return the stored
    fields of a receiver that points to a [DecodeFailure] and panic on
    any other receiver (in Go: the nil one); none of the three changes
    the store. *)
Theorem DecodeFailure_methods (d : ptr) (h : heap) :
  DecodeFailure_LayerType d h = Returned TYPE_DECODE_FAILURE h
  /\ match DecodeFailure_at h d with
     | Some df =>
         DecodeFailure_Payload d h = Returned (DecodeFailure_data df) h
         /\ DecodeFailure_Error d h = Returned (DecodeFailure_err df) h
     | None =>
         DecodeFailure_Payload d h = Panicked
         /\ DecodeFailure_Error d h = Panicked
     end.
Proof.
  split; [done|].
  unfold DecodeFailure_at, DecodeFailure_Payload, DecodeFailure_Error,
    load_DecodeFailure, bind, load.
  destruct d as [a|]; [|done].
  destruct (h !! a) as [[]|]; done.
Qed.

(** ** The decoders keep the store well typed *)

Section Typing.
Implicit Types (h : heap) (o : object) (a l : nat).

Lemma store_ok_lookup h :
  store_ok h = true <-> forall a o, h !! a = Some o -> object_ok h o = true.
Proof.
  unfold store_ok. rewrite forallb_forall. split.
  - intros Hall a o Ha. apply Hall, list_elem_of_In, list_elem_of_lookup. eauto.
  - intros Hall o Ho. apply list_elem_of_In, list_elem_of_lookup in Ho as [a Ha].
    eauto.
Qed.

Lemma is_layer_kinds h h' p :
  keeps_kinds h h' -> is_layer h p = true -> is_layer h' p = true.
Proof.
  intros Hk. destruct p as [a|]; [|done]. unfold is_layer.
  destruct (h !! a) as [o|] eqn:Ha; [|done].
  destruct (Hk _ _ Ha) as (o' & -> & Hsame). by destruct o, o'.
Qed.

Lemma is_error_kinds h h' e :
  keeps_kinds h h' -> is_error h e = true -> is_error h' e = true.
Proof.
  intros Hk. destruct e as [a|]; [|done]. unfold is_error.
  destruct (h !! a) as [o|] eqn:Ha; [|done].
  destruct (Hk _ _ Ha) as (o' & -> & Hsame). by destruct o, o'.
Qed.

Lemma object_ok_kinds h h' o :
  keeps_kinds h h' -> object_ok h o = true -> object_ok h' o = true.
Proof.
  intros Hk. destruct o as [| d | | sl]; cbn [object_ok]; try done.
  - by apply is_error_kinds.
  - rewrite !andb_true_iff. intros ((((H1 & H2) & H3) & H4) & H5).
    repeat split; by eapply is_layer_kinds.
Qed.

Lemma keeps_kinds_new h o : keeps_kinds h (h ++ [o]).
Proof.
  intros a x Ha. exists x. split; [by apply lookup_new_Some|by destruct x].
Qed.

Lemma keeps_kinds_decodePayload h l sl sl' o :
  h !! l = Some (OSpecificLayers sl) ->
  keeps_kinds h (<[l := OSpecificLayers sl']> (h ++ [o])).
Proof.
  intros Hl a x Ha. destruct (decide (a = l)) as [->|Hne].
  - exists (OSpecificLayers sl'). split.
    + apply list_lookup_insert_eq. rewrite length_app.
      apply lookup_lt_Some in Hl. lia.
    + rewrite Hl in Ha. by injection Ha as <-.
  - exists x. rewrite list_lookup_insert_ne by done.
    split; [by apply lookup_new_Some|by destruct x].
Qed.
End Typing.





(** * Properties of the Docker client methods *)

Section Strings.
Implicit Types (s t u : string).

Lemma append_length s t :
  String.length (s +:+ t) = String.length s + String.length t.
Proof. induction s as [|c s IH]; simpl; [done|]. by rewrite IH. Qed.

Lemma append_inj_r s1 s2 t : s1 +:+ t = s2 +:+ t -> s1 = s2.
Proof.
  revert s2. induction s1 as [|c s1 IH]; intros [|c2 s2] Heq; simpl in Heq.
  - done.
  - apply (f_equal String.length) in Heq.
    rewrite ?append_length in Heq. simpl in Heq.
    rewrite ?append_length in Heq. lia.
  - apply (f_equal String.length) in Heq.
    rewrite ?append_length in Heq. simpl in Heq.
    rewrite ?append_length in Heq. lia.
  - injection Heq as -> Heq. f_equal. by apply IH.
Qed.
End Strings.

(** X8: the request paths name their container: two calls of
    [InspectContainer], of [KillContainer] or of [RemoveContainer] address
    the same path exactly when they are given the same id. *)
Theorem container_paths_inj (id1 id2 : string) :
  (InspectContainer_path id1 = InspectContainer_path id2 <-> id1 = id2)
  /\ (KillContainer_path id1 = KillContainer_path id2 <-> id1 = id2)
  /\ (RemoveContainer_path id1 = RemoveContainer_path id2 <-> id1 = id2).
Proof.
  unfold InspectContainer_path, KillContainer_path, RemoveContainer_path.
  repeat split; try (by intros ->); intros Heq.
  - apply (inj (String.app _)) in Heq. by apply append_inj_r in Heq.
  - apply (inj (String.app _)) in Heq. by apply append_inj_r in Heq.
  - by apply (inj (String.app _)) in Heq.
Qed.

(** X9: whatever the id, the path that [KillContainer] posts to is never
    the path that [CreateContainer] posts to. *)
Theorem KillContainer_path_not_create (id : string) :
  KillContainer_path id <> CreateContainer_path.
Proof.
  unfold KillContainer_path, CreateContainer_path. intros Heq.
  apply (f_equal String.length) in Heq as Hlen.
  rewrite !append_length in Hlen. simpl in Hlen.
  destruct id as [|c [|c' id]]; simpl in Hlen; try lia.
  discriminate Heq.
Qed.

Section Containers.
Context `{Client}.

(** X10: [InspectContainer] and [CreateContainer] return a container
    exactly when they return no error, and [ListContainers] returns the
    nil slice whenever it returns an error; this for every behaviour of
    the transport and of the JSON decoder. *)
Theorem container_result_iff_no_error (opts : option ListContainersOptions)
    (id : string) (config : Config) (w : World) :
  (is_Some (fst (fst (InspectContainer id w)))
   <-> snd (fst (InspectContainer id w)) = None)
  /\ (is_Some (fst (fst (CreateContainer config w)))
      <-> snd (fst (CreateContainer config w)) = None)
  /\ (fst (fst (ListContainers opts w)) = []
      \/ snd (fst (ListContainers opts w)) = None).
Proof.
  unfold InspectContainer, CreateContainer, ListContainers.
  repeat split.
  - destruct (Client_do "GET" _ None w) as [[[body code] [e|]] w']; cbn.
    + by intros [? ?].
    + destruct (json_Unmarshal_Container body) as [c [e|]]; cbn;
        [by intros [? ?]|done].
  - destruct (Client_do "GET" _ None w) as [[[body code] [e|]] w']; cbn;
      [done|].
    destruct (json_Unmarshal_Container body) as [c [e|]]; cbn; [done|].
    by eexists.
  - destruct (Client_do "POST" _ _ w) as [[[body code] [e|]] w']; cbn.
    + by intros [? ?].
    + destruct (json_Unmarshal_Container body) as [c [e|]]; cbn;
        [by intros [? ?]|done].
  - destruct (Client_do "POST" _ _ w) as [[[body code] [e|]] w']; cbn;
      [done|].
    destruct (json_Unmarshal_Container body) as [c [e|]]; cbn; [done|].
    by eexists.
  - destruct (Client_do "GET" _ None w) as [[[body code] [e|]] w']; cbn;
      [by left|].
    destruct (json_Unmarshal_ApiContainers body) as [cs [e|]]; cbn;
      [by left|by right].
Qed.
End Containers.
